(** * Dispatch of FUSE requests (fuse_ll/src/fuse/request.rs)

    A shallow embedding of [Request::dispatch].  The decoded request
    ([ll_request::Request]) is taken as input; the session is an explicit
    record threaded through the dispatcher; the filesystem capability is a
    type class whose methods transform an abstract filesystem state; every
    effect the dispatcher has (calling a filesystem method, sending a reply
    through a reply object) is recorded in a trace of events; an aborted
    dispatch ([assert_eq!], arithmetic overflow panics) is an explicit
    outcome. *)

From Stdlib Require Import ZArith List Bool String Lia.
Import ListNotations.
Open Scope Z_scope.

(** ** Integers and constants *)

(** Error numbers of [libc] (Linux). *)
Definition EIO : Z := 5.
Definition ENOSYS : Z := 38.
Definition EPROTO : Z := 71.

(** Constants of the kernel FUSE ABI ([abi::consts]). *)
Definition FUSE_ASYNC_READ : Z := Z.shiftl 1 0.
Definition FUSE_CASE_INSENSITIVE : Z := Z.shiftl 1 29.
Definition FUSE_VOL_RENAME : Z := Z.shiftl 1 30.
Definition FUSE_XTIMES : Z := Z.shiftl 1 31.

Definition FATTR_MODE : Z := Z.shiftl 1 0.
Definition FATTR_UID : Z := Z.shiftl 1 1.
Definition FATTR_GID : Z := Z.shiftl 1 2.
Definition FATTR_SIZE : Z := Z.shiftl 1 3.
Definition FATTR_ATIME : Z := Z.shiftl 1 4.
Definition FATTR_MTIME : Z := Z.shiftl 1 5.
Definition FATTR_FH : Z := Z.shiftl 1 6.
Definition FATTR_CRTIME : Z := Z.shiftl 1 28.
Definition FATTR_CHGTIME : Z := Z.shiftl 1 29.
Definition FATTR_BKUPTIME : Z := Z.shiftl 1 30.
Definition FATTR_FLAGS : Z := Z.shiftl 1 31.

Definition FUSE_RELEASE_FLUSH : Z := Z.shiftl 1 0.

Definition U32_MODULUS : Z := 2 ^ 32.
Definition U64_MODULUS : Z := 2 ^ 64.
Definition I64_MAX : Z := 2 ^ 63 - 1.

(** [x as u32] for a [usize] value. *)
Definition as_u32 (x : Z) : Z := x mod U32_MODULUS.

(** [x as i64] for a [u64] value (two's complement reinterpretation). *)
Definition u64_as_i64 (x : Z) : Z := if x <? 2 ^ 63 then x else x - U64_MODULUS.

(** Build configuration: the constants of [session.rs] and [abi.rs] the
    dispatcher reads, and whether the crate is compiled for macOS. *)
Record Config := mkConfig {
  BUFFER_SIZE : Z;
  MAX_WRITE_SIZE : Z;
  FUSE_KERNEL_VERSION : Z;
  FUSE_KERNEL_MINOR_VERSION : Z;
  target_macos : bool
}.

(** [INIT_FLAGS], selected by [#[cfg(target_os = "macos")]]. *)
Definition INIT_FLAGS (cfg : Config) : Z :=
  if target_macos cfg
  then Z.lor (Z.lor (Z.lor FUSE_ASYNC_READ FUSE_CASE_INSENSITIVE) FUSE_VOL_RENAME) FUSE_XTIMES
  else FUSE_ASYNC_READ.

(** ** Time ([std::time] on a Unix target) *)

Definition NANOS_PER_SEC : Z := 1000000000.

Record Duration := mkDuration { dur_secs : Z; dur_nanos : Z }.

(** [SystemTime] is a [timespec]: signed 64-bit seconds and nanoseconds. *)
Record SystemTime := mkSystemTime { tv_sec : Z; tv_nsec : Z }.

Definition UNIX_EPOCH : SystemTime := mkSystemTime 0 0.

(** [Duration::new(secs, nanos)]: [None] is its panic
    ("overflow in Duration::new"). *)
Definition Duration_new (secs nanos : Z) : option Duration :=
  if nanos <? NANOS_PER_SEC then Some (mkDuration secs nanos)
  else
    let s := secs + nanos / NANOS_PER_SEC in
    if s <? U64_MODULUS then Some (mkDuration s (nanos mod NANOS_PER_SEC))
    else None.

(** [SystemTime::checked_add] ([Timespec::checked_add_duration]). *)
Definition SystemTime_checked_add (t : SystemTime) (d : Duration) : option SystemTime :=
  let secs := tv_sec t + dur_secs d in
  if I64_MAX <? secs then None
  else
    let nsec := tv_nsec t + dur_nanos d in
    if NANOS_PER_SEC <=? nsec then
      (if I64_MAX <? secs + 1 then None
       else Some (mkSystemTime (secs + 1) (nsec - NANOS_PER_SEC)))
    else Some (mkSystemTime secs nsec).

(** ** Aborting computations

    [Abort] is a Rust panic: a failed assertion or an arithmetic overflow
    in the standard library. *)

Inductive Exec (A : Type) : Type :=
| Ret (a : A)
| Abort (msg : string).
Arguments Ret {A} a.
Arguments Abort {A} msg.

Definition bind {A B} (m : Exec A) (f : A -> Exec B) : Exec B :=
  match m with Ret a => f a | Abort s => Abort s end.

Notation "x <- m ;; k" := (bind m (fun x => k)) (at level 61, m at next level, right associativity).

(** [expect]: panic with [msg] on [None]. *)
Definition expect {A} (o : option A) (msg : string) : Exec A :=
  match o with Some a => Ret a | None => Abort msg end.

(** [UNIX_EPOCH + Duration::new(secs, nanos)]: [+] on [SystemTime] panics
    when the result is not representable. *)
Definition epoch_plus (secs nanos : Z) : Exec SystemTime :=
  d <- expect (Duration_new secs nanos) "overflow in Duration::new" ;;
  expect (SystemTime_checked_add UNIX_EPOCH d) "overflow when adding duration to instant".

(** [match UNIX_EPOCH.checked_add(Duration::new(secs, nanos)) { Some(t) => t,
    None => SystemTime::now() }] *)
Definition epoch_checked_or_now (now : SystemTime) (secs nanos : Z) : Exec SystemTime :=
  d <- expect (Duration_new secs nanos) "overflow in Duration::new" ;;
  match SystemTime_checked_add UNIX_EPOCH d with
  | Some t => Ret t
  | None => Ret now
  end.

(** ** Wire argument structs ([abi.rs]), with the fields the dispatcher reads *)

Definition bytes := list Z.

Record fuse_init_in := mk_fuse_init_in {
  init_in_major : Z; init_in_minor : Z; init_in_max_readahead : Z; init_in_flags : Z }.

Record fuse_init_out := mk_fuse_init_out {
  init_out_major : Z; init_out_minor : Z; init_out_max_readahead : Z;
  init_out_flags : Z; init_out_unused : Z; init_out_max_write : Z }.

Record fuse_interrupt_in := mk_fuse_interrupt_in { interrupt_unique : Z }.
Record fuse_forget_in := mk_fuse_forget_in { forget_nlookup : Z }.

Record fuse_setattr_in := mk_fuse_setattr_in {
  setattr_valid : Z; setattr_fh : Z; setattr_size : Z; setattr_lock_owner : Z;
  setattr_atime : Z; setattr_mtime : Z; setattr_atimensec : Z; setattr_mtimensec : Z;
  setattr_mode : Z; setattr_uid : Z; setattr_gid : Z;
  (* macOS only *)
  setattr_bkuptime : Z; setattr_chgtime : Z; setattr_crtime : Z;
  setattr_bkuptimensec : Z; setattr_chgtimensec : Z; setattr_crtimensec : Z;
  setattr_flags : Z }.

Record fuse_mknod_in := mk_fuse_mknod_in { mknod_mode : Z; mknod_rdev : Z }.
Record fuse_mkdir_in := mk_fuse_mkdir_in { mkdir_mode : Z }.
Record fuse_rename_in := mk_fuse_rename_in { rename_newdir : Z }.
Record fuse_link_in := mk_fuse_link_in { link_oldnodeid : Z }.
Record fuse_open_in := mk_fuse_open_in { open_flags : Z }.
Record fuse_read_in := mk_fuse_read_in { read_fh : Z; read_offset : Z; read_size : Z }.
Record fuse_write_in := mk_fuse_write_in {
  write_fh : Z; write_offset : Z; write_size : Z; write_flags : Z }.
Record fuse_flush_in := mk_fuse_flush_in { flush_fh : Z; flush_lock_owner : Z }.
Record fuse_release_in := mk_fuse_release_in {
  release_fh : Z; release_flags : Z; release_release_flags : Z; release_lock_owner : Z }.
Record fuse_fsync_in := mk_fuse_fsync_in { fsync_fh : Z; fsync_fsync_flags : Z }.
Record fuse_setxattr_in := mk_fuse_setxattr_in {
  setxattr_size : Z; setxattr_flags : Z; setxattr_position : Z (* macOS only *) }.
Record fuse_getxattr_in := mk_fuse_getxattr_in { getxattr_size : Z }.
Record fuse_access_in := mk_fuse_access_in { access_mask : Z }.
Record fuse_create_in := mk_fuse_create_in { create_flags : Z; create_mode : Z }.
Record fuse_file_lock := mk_fuse_file_lock { lk_start : Z; lk_end : Z; lk_typ : Z; lk_pid : Z }.
Record fuse_lk_in := mk_fuse_lk_in { lk_fh : Z; lk_owner : Z; lk_lk : fuse_file_lock }.
Record fuse_bmap_in := mk_fuse_bmap_in { bmap_block : Z; bmap_blocksize : Z }.
Record fuse_exchange_in := mk_fuse_exchange_in {
  exchange_olddir : Z; exchange_newdir : Z; exchange_options : Z }.

(** ** Decoded operations ([ll_request::Operation])

    The decoder produces [SetVolName], [GetXTimes] and [Exchange] only on
    macOS. *)
Inductive Operation :=
| Init (arg : fuse_init_in)
| Destroy
| Interrupt (arg : fuse_interrupt_in)
| Lookup (name : bytes)
| Forget (arg : fuse_forget_in)
| GetAttr
| SetAttr (arg : fuse_setattr_in)
| ReadLink
| MkNod (arg : fuse_mknod_in) (name : bytes)
| MkDir (arg : fuse_mkdir_in) (name : bytes)
| Unlink (name : bytes)
| RmDir (name : bytes)
| SymLink (name link : bytes)
| Rename (arg : fuse_rename_in) (name newname : bytes)
| Link (arg : fuse_link_in) (name : bytes)
| Open (arg : fuse_open_in)
| Read (arg : fuse_read_in)
| Write (arg : fuse_write_in) (data : bytes)
| Flush (arg : fuse_flush_in)
| Release (arg : fuse_release_in)
| FSync (arg : fuse_fsync_in)
| OpenDir (arg : fuse_open_in)
| ReadDir (arg : fuse_read_in)
| ReleaseDir (arg : fuse_release_in)
| FSyncDir (arg : fuse_fsync_in)
| StatFs
| SetXAttr (arg : fuse_setxattr_in) (name value : bytes)
| GetXAttr (arg : fuse_getxattr_in) (name : bytes)
| ListXAttr (arg : fuse_getxattr_in)
| RemoveXAttr (name : bytes)
| Access (arg : fuse_access_in)
| Create (arg : fuse_create_in) (name : bytes)
| GetLk (arg : fuse_lk_in)
| SetLk (arg : fuse_lk_in)
| SetLkW (arg : fuse_lk_in)
| BMap (arg : fuse_bmap_in)
| SetVolName (name : bytes)
| GetXTimes
| Exchange (arg : fuse_exchange_in) (oldname newname : bytes).

(** The channel a reply is sent through ([ChannelSender], a copyable handle). *)
Record ChannelSender := mkChannelSender { ch_fd : Z }.

(** The parsed request ([ll_request::Request]): header fields and operation. *)
Record LlRequest := mkLlRequest {
  unique : Z; nodeid : Z; uid : Z; gid : Z; pid : Z; operation : Operation }.

(** [request::Request]: channel sender and parsed request. *)
Record Request := mkRequest { ch : ChannelSender; request : LlRequest }.

(** ** Reply objects ([reply.rs])

    A reply object is bound to a correlation id and a channel when it is
    created; the directory reply also carries its byte budget. *)
Inductive ReplyObj :=
| ReplyOf (r_unique : Z) (r_ch : ChannelSender)
| ReplyDirectory (r_unique : Z) (r_ch : ChannelSender) (r_size : Z).

Definition reply_unique (r : ReplyObj) : Z :=
  match r with ReplyOf u _ => u | ReplyDirectory u _ _ => u end.

(** [ReplyDirectory::new(unique, ch, size)] *)
Definition ReplyDirectory_new (u : Z) (c : ChannelSender) (size : Z) : ReplyObj :=
  ReplyDirectory u c size.

(** [Request::reply]: [Reply::new(self.request.unique(), self.ch)]. *)
Definition reply (self : Request) : ReplyObj :=
  ReplyOf (unique (request self)) (ch self).

(** Terminal messages the dispatcher itself sends through a reply object. *)
Inductive ReplyMsg :=
| ReplyError (err : Z)
| ReplyOkEmpty
| ReplyOkInit (init : fuse_init_out).

(** ** The filesystem capability ([Filesystem] trait)

    One constructor per trait method, with the arguments the dispatcher
    passes (the request itself, passed to every method, is kept aside). *)
Inductive FsCall :=
| FsInit
| FsDestroy
| FsLookup (parent : Z) (name : bytes) (r : ReplyObj)
| FsForget (ino : Z) (nlookup : Z)
| FsGetAttr (ino : Z) (r : ReplyObj)
| FsSetAttr (ino : Z) (mode uid gid size : option Z) (atime mtime : option SystemTime)
    (fh : option Z) (crtime chgtime bkuptime : option SystemTime) (flags : option Z)
    (r : ReplyObj)
| FsReadLink (ino : Z) (r : ReplyObj)
| FsMkNod (parent : Z) (name : bytes) (mode rdev : Z) (r : ReplyObj)
| FsMkDir (parent : Z) (name : bytes) (mode : Z) (r : ReplyObj)
| FsUnlink (parent : Z) (name : bytes) (r : ReplyObj)
| FsRmDir (parent : Z) (name : bytes) (r : ReplyObj)
| FsSymLink (parent : Z) (name link : bytes) (r : ReplyObj)
| FsRename (parent : Z) (name : bytes) (newparent : Z) (newname : bytes) (r : ReplyObj)
| FsLink (ino newparent : Z) (newname : bytes) (r : ReplyObj)
| FsOpen (ino flags : Z) (r : ReplyObj)
| FsRead (ino fh offset size : Z) (r : ReplyObj)
| FsWrite (ino fh offset : Z) (data : bytes) (flags : Z) (r : ReplyObj)
| FsFlush (ino fh lock_owner : Z) (r : ReplyObj)
| FsRelease (ino fh flags lock_owner : Z) (flush : bool) (r : ReplyObj)
| FsFSync (ino fh : Z) (datasync : bool) (r : ReplyObj)
| FsOpenDir (ino flags : Z) (r : ReplyObj)
| FsReadDir (ino fh offset : Z) (r : ReplyObj)
| FsReleaseDir (ino fh flags : Z) (r : ReplyObj)
| FsFSyncDir (ino fh : Z) (datasync : bool) (r : ReplyObj)
| FsStatFs (ino : Z) (r : ReplyObj)
| FsSetXAttr (ino : Z) (name value : bytes) (flags position : Z) (r : ReplyObj)
| FsGetXAttr (ino : Z) (name : bytes) (size : Z) (r : ReplyObj)
| FsListXAttr (ino size : Z) (r : ReplyObj)
| FsRemoveXAttr (ino : Z) (name : bytes) (r : ReplyObj)
| FsAccess (ino mask : Z) (r : ReplyObj)
| FsCreate (parent : Z) (name : bytes) (mode flags : Z) (r : ReplyObj)
| FsGetLk (ino fh lock_owner start end_ typ pid : Z) (r : ReplyObj)
| FsSetLk (ino fh lock_owner start end_ typ pid : Z) (sleep : bool) (r : ReplyObj)
| FsBMap (ino blocksize idx : Z) (r : ReplyObj)
| FsSetVolName (name : bytes) (r : ReplyObj)
| FsGetXTimes (ino : Z) (r : ReplyObj)
| FsExchange (parent : Z) (name : bytes) (newparent : Z) (newname : bytes) (options : Z)
    (r : ReplyObj).

(** The reply object handed to the filesystem method, if any. *)
Definition call_reply (c : FsCall) : option ReplyObj :=
  match c with
  | FsInit | FsDestroy | FsForget _ _ => None
  | FsLookup _ _ r | FsGetAttr _ r | FsSetAttr _ _ _ _ _ _ _ _ _ _ _ _ r
  | FsReadLink _ r | FsMkNod _ _ _ _ r | FsMkDir _ _ _ r | FsUnlink _ _ r
  | FsRmDir _ _ r | FsSymLink _ _ _ r | FsRename _ _ _ _ r | FsLink _ _ _ r
  | FsOpen _ _ r | FsRead _ _ _ _ r | FsWrite _ _ _ _ _ r | FsFlush _ _ _ r
  | FsRelease _ _ _ _ _ r | FsFSync _ _ _ r | FsOpenDir _ _ r | FsReadDir _ _ _ r
  | FsReleaseDir _ _ _ r | FsFSyncDir _ _ _ r | FsStatFs _ r | FsSetXAttr _ _ _ _ _ r
  | FsGetXAttr _ _ _ r | FsListXAttr _ _ r | FsRemoveXAttr _ _ r | FsAccess _ _ r
  | FsCreate _ _ _ _ r | FsGetLk _ _ _ _ _ _ _ r | FsSetLk _ _ _ _ _ _ _ _ r
  | FsBMap _ _ _ r | FsSetVolName _ r | FsGetXTimes _ r | FsExchange _ _ _ _ _ r => Some r
  end.

Inductive Result (T E : Type) : Type :=
| Ok (t : T)
| Err (e : E).
Arguments Ok {T E} t.
Arguments Err {T E} e.

(** The trait, over the implementation's state: [init] may fail the
    mount, [destroy] has no error channel, every other method receives its
    arguments (and, when it replies, the reply object). *)
Class Filesystem (FS : Type) := {
  fs_init : FS -> Request -> FS * Result unit Z;
  fs_destroy : FS -> Request -> FS;
  fs_call : FS -> Request -> FsCall -> FS
}.

(** ** Session ([session.rs]) *)
Record Session (FS : Type) := mkSession {
  filesystem : FS;
  proto_major : Z;
  proto_minor : Z;
  initialized : bool;
  destroyed : bool
}.
Arguments mkSession {FS}.
Arguments filesystem {FS}.
Arguments proto_major {FS}.
Arguments proto_minor {FS}.
Arguments initialized {FS}.
Arguments destroyed {FS}.

Definition set_filesystem {FS} (se : Session FS) (fs : FS) : Session FS :=
  mkSession fs (proto_major se) (proto_minor se) (initialized se) (destroyed se).
Definition set_proto {FS} (se : Session FS) (major minor : Z) : Session FS :=
  mkSession (filesystem se) major minor (initialized se) (destroyed se).
Definition set_initialized {FS} (se : Session FS) : Session FS :=
  mkSession (filesystem se) (proto_major se) (proto_minor se) true (destroyed se).
Definition set_destroyed {FS} (se : Session FS) : Session FS :=
  mkSession (filesystem se) (proto_major se) (proto_minor se) (initialized se) true.

(** ** Effects of a dispatch *)
Inductive Event :=
| Invoke (c : FsCall)                 (** a filesystem method is called *)
| Send (r : ReplyObj) (m : ReplyMsg). (** the dispatcher completes a reply *)

(** A dispatch either returns, or panics; both with the session as left
    and the events so far. *)
Inductive Outcome (FS : Type) :=
| Done (se : Session FS) (tr : list Event)
| Panicked (msg : string) (se : Session FS) (tr : list Event).
Arguments Done {FS}.
Arguments Panicked {FS}.

(** ** [Request::dispatch] *)
Section Dispatch.
Context {FS : Type} `{Filesystem FS}.
(** The build configuration, and the value [SystemTime::now()] would return. *)
Variable cfg : Config.
Variable now : SystemTime.

(** A call of a filesystem method that does not fail the dispatch. *)
Definition invoke (self : Request) (se : Session FS) (c : FsCall) : Outcome FS :=
  Done (set_filesystem se (fs_call (filesystem se) self c)) [Invoke c].

(** The dispatcher's own error reply through a fresh [ReplyEmpty]. *)
Definition reply_error (self : Request) (se : Session FS) (err : Z) : Outcome FS :=
  Done se [Send (reply self) (ReplyError err)].

(** The arm [_ if !se.initialized => ...]. *)
Definition before_init_guard (self : Request) (se : Session FS) (k : Outcome FS) : Outcome FS :=
  if negb (initialized se) then reply_error self se EIO else k.

(** The arm [_ if se.destroyed => ...], reached once [se.initialized] holds. *)
Definition after_destroy_guard (self : Request) (se : Session FS) (k : Outcome FS) : Outcome FS :=
  if destroyed se then reply_error self se EIO else k.

(** Both guards, in the order of the match arms. *)
Definition guarded (self : Request) (se : Session FS) (k : Outcome FS) : Outcome FS :=
  before_init_guard self se (after_destroy_guard self se k).

(** A panic raised while computing the arguments of a filesystem call. *)
Definition run_exec (se : Session FS) (m : Exec (Outcome FS)) : Outcome FS :=
  match m with Ret o => o | Abort msg => Panicked msg se [] end.

(** [match arg.valid & BIT { 0 => None, _ => Some(v) }] *)
Definition opt_bit {A : Type} (valid bit : Z) (v : A) : option A :=
  if Z.land valid bit =? 0 then None else Some v.

(** The same, for [Some(UNIX_EPOCH + Duration::new(secs, nanos))]. *)
Definition time_bit (valid bit secs nanos : Z) : Exec (option SystemTime) :=
  if Z.land valid bit =? 0 then Ret None
  else (t <- epoch_plus secs nanos ;; Ret (Some t)).

(** The same, for the clamped [checked_add] variant of the macOS fields. *)
Definition time_bit_checked (valid bit secs nanos : Z) : Exec (option SystemTime) :=
  if Z.land valid bit =? 0 then Ret None
  else (t <- epoch_checked_or_now now secs nanos ;; Ret (Some t)).

(** [get_macos_setattr], both [cfg] variants. *)
Definition get_macos_setattr (arg : fuse_setattr_in)
  : Exec (option SystemTime * option SystemTime * option SystemTime * option Z) :=
  if target_macos cfg then
    crtime <- time_bit_checked (setattr_valid arg) FATTR_CRTIME
                (setattr_crtime arg) (setattr_crtimensec arg) ;;
    chgtime <- time_bit_checked (setattr_valid arg) FATTR_CHGTIME
                (setattr_chgtime arg) (setattr_chgtimensec arg) ;;
    bkuptime <- time_bit_checked (setattr_valid arg) FATTR_BKUPTIME
                (setattr_bkuptime arg) (setattr_bkuptimensec arg) ;;
    let flags := opt_bit (setattr_valid arg) FATTR_FLAGS (setattr_flags arg) in
    Ret (crtime, chgtime, bkuptime, flags)
  else Ret (None, None, None, None).

(** The arguments of [setattr], in the order the source computes them. *)
Definition setattr_call (ino : Z) (arg : fuse_setattr_in) (r : ReplyObj) : Exec FsCall :=
  let v := setattr_valid arg in
  let mode := opt_bit v FATTR_MODE (setattr_mode arg) in
  let uid := opt_bit v FATTR_UID (setattr_uid arg) in
  let gid := opt_bit v FATTR_GID (setattr_gid arg) in
  let size := opt_bit v FATTR_SIZE (setattr_size arg) in
  atime <- time_bit v FATTR_ATIME (setattr_atime arg) (setattr_atimensec arg) ;;
  mtime <- time_bit v FATTR_MTIME (setattr_mtime arg) (setattr_mtimensec arg) ;;
  let fh := opt_bit v FATTR_FH (setattr_fh arg) in
  mac <- get_macos_setattr arg ;;
  let '(crtime, chgtime, bkuptime, flags) := mac in
  Ret (FsSetAttr ino mode uid gid size atime mtime fh crtime chgtime bkuptime flags r).

(** [get_position] of [SetXAttr]. *)
Definition get_position (arg : fuse_setxattr_in) : Z :=
  if target_macos cfg then setxattr_position arg else 0.

(** The negotiated readahead of the handshake reply. *)
Definition negotiated_readahead (arg : fuse_init_in) : Z :=
  if as_u32 (BUFFER_SIZE cfg) <? init_in_max_readahead arg
  then as_u32 (BUFFER_SIZE cfg) else init_in_max_readahead arg.

(** The [Operation::Init] arm. *)
Definition dispatch_init (self : Request) (se : Session FS) (arg : fuse_init_in) : Outcome FS :=
  let reply := reply self in
  if (init_in_major arg <? 7) || ((init_in_major arg =? 7) && (init_in_minor arg <? 6)) then
    Done se [Send reply (ReplyError EPROTO)]
  else
    let se1 := set_proto se (init_in_major arg) (init_in_minor arg) in
    let (fs', res) := fs_init (filesystem se1) self in
    let se2 := set_filesystem se1 fs' in
    match res with
    | Err err => Done se2 [Invoke FsInit; Send reply (ReplyError err)]
    | Ok _ =>
        let init := mk_fuse_init_out
                      (FUSE_KERNEL_VERSION cfg) (FUSE_KERNEL_MINOR_VERSION cfg)
                      (negotiated_readahead arg)
                      (Z.land (init_in_flags arg) (INIT_FLAGS cfg))
                      0 (as_u32 (MAX_WRITE_SIZE cfg)) in
        Done (set_initialized se2) [Invoke FsInit; Send reply (ReplyOkInit init)]
    end.

(** The [Operation::Destroy] arm. *)
Definition dispatch_destroy (self : Request) (se : Session FS) : Outcome FS :=
  let se1 := set_filesystem se (fs_destroy (filesystem se) self) in
  Done (set_destroyed se1) [Invoke FsDestroy; Send (reply self) ReplyOkEmpty].

Definition flag_bit (flags bit : Z) : bool := negb (Z.land flags bit =? 0).

(** [Request::dispatch], arm by arm. *)
Definition dispatch (self : Request) (se : Session FS) : Outcome FS :=
  let ino := nodeid (request self) in
  let g := guarded self se in
  match operation (request self) with
  | Init arg => dispatch_init self se arg
  | Destroy => before_init_guard self se (dispatch_destroy self se)
  | Interrupt _ => g (reply_error self se ENOSYS)
  | Lookup name => g (invoke self se (FsLookup ino name (reply self)))
  | Forget arg => g (invoke self se (FsForget ino (forget_nlookup arg)))
  | GetAttr => g (invoke self se (FsGetAttr ino (reply self)))
  | SetAttr arg =>
      g (run_exec se (c <- setattr_call ino arg (reply self) ;; Ret (invoke self se c)))
  | ReadLink => g (invoke self se (FsReadLink ino (reply self)))
  | MkNod arg name =>
      g (invoke self se (FsMkNod ino name (mknod_mode arg) (mknod_rdev arg) (reply self)))
  | MkDir arg name => g (invoke self se (FsMkDir ino name (mkdir_mode arg) (reply self)))
  | Unlink name => g (invoke self se (FsUnlink ino name (reply self)))
  | RmDir name => g (invoke self se (FsRmDir ino name (reply self)))
  | SymLink name link => g (invoke self se (FsSymLink ino name link (reply self)))
  | Rename arg name newname =>
      g (invoke self se (FsRename ino name (rename_newdir arg) newname (reply self)))
  | Link arg name => g (invoke self se (FsLink (link_oldnodeid arg) ino name (reply self)))
  | Open arg => g (invoke self se (FsOpen ino (open_flags arg) (reply self)))
  | Read arg =>
      g (invoke self se (FsRead ino (read_fh arg) (u64_as_i64 (read_offset arg))
                           (read_size arg) (reply self)))
  | Write arg data =>
      g (if Z.of_nat (List.length data) =? write_size arg
         then invoke self se (FsWrite ino (write_fh arg) (u64_as_i64 (write_offset arg))
                                data (write_flags arg) (reply self))
         else Panicked "assertion `left == right` failed" se [])
  | Flush arg =>
      g (invoke self se (FsFlush ino (flush_fh arg) (flush_lock_owner arg) (reply self)))
  | Release arg =>
      let flush := flag_bit (release_release_flags arg) FUSE_RELEASE_FLUSH in
      g (invoke self se (FsRelease ino (release_fh arg) (release_flags arg)
                           (release_lock_owner arg) flush (reply self)))
  | FSync arg =>
      let datasync := flag_bit (fsync_fsync_flags arg) 1 in
      g (invoke self se (FsFSync ino (fsync_fh arg) datasync (reply self)))
  | OpenDir arg => g (invoke self se (FsOpenDir ino (open_flags arg) (reply self)))
  | ReadDir arg =>
      g (invoke self se (FsReadDir ino (read_fh arg) (u64_as_i64 (read_offset arg))
                           (ReplyDirectory_new (unique (request self)) (ch self)
                              (read_size arg))))
  | ReleaseDir arg =>
      g (invoke self se (FsReleaseDir ino (release_fh arg) (release_flags arg) (reply self)))
  | FSyncDir arg =>
      let datasync := flag_bit (fsync_fsync_flags arg) 1 in
      g (invoke self se (FsFSyncDir ino (fsync_fh arg) datasync (reply self)))
  | StatFs => g (invoke self se (FsStatFs ino (reply self)))
  | SetXAttr arg name value =>
      g (if Z.of_nat (List.length value) =? setxattr_size arg
         then invoke self se (FsSetXAttr ino name value (setxattr_flags arg)
                                (get_position arg) (reply self))
         else Panicked "assertion failed: value.len() == arg.size as usize" se [])
  | GetXAttr arg name =>
      g (invoke self se (FsGetXAttr ino name (getxattr_size arg) (reply self)))
  | ListXAttr arg => g (invoke self se (FsListXAttr ino (getxattr_size arg) (reply self)))
  | RemoveXAttr name => g (invoke self se (FsRemoveXAttr ino name (reply self)))
  | Access arg => g (invoke self se (FsAccess ino (access_mask arg) (reply self)))
  | Create arg name =>
      g (invoke self se (FsCreate ino name (create_mode arg) (create_flags arg) (reply self)))
  | GetLk arg =>
      let lk := lk_lk arg in
      g (invoke self se (FsGetLk ino (lk_fh arg) (lk_owner arg) (lk_start lk) (lk_end lk)
                           (lk_typ lk) (lk_pid lk) (reply self)))
  | SetLk arg =>
      let lk := lk_lk arg in
      g (invoke self se (FsSetLk ino (lk_fh arg) (lk_owner arg) (lk_start lk) (lk_end lk)
                           (lk_typ lk) (lk_pid lk) false (reply self)))
  | SetLkW arg =>
      let lk := lk_lk arg in
      g (invoke self se (FsSetLk ino (lk_fh arg) (lk_owner arg) (lk_start lk) (lk_end lk)
                           (lk_typ lk) (lk_pid lk) true (reply self)))
  | BMap arg =>
      g (invoke self se (FsBMap ino (bmap_blocksize arg) (bmap_block arg) (reply self)))
  | SetVolName name => g (invoke self se (FsSetVolName name (reply self)))
  | GetXTimes => g (invoke self se (FsGetXTimes ino (reply self)))
  | Exchange arg oldname newname =>
      g (invoke self se (FsExchange (exchange_olddir arg) oldname (exchange_newdir arg)
                           newname (exchange_options arg) (reply self)))
  end.

End Dispatch.

(** ** Reply bytes *)

(** Modelled from the spec: the serialisation of [reply.rs] (not part of
    this source), per the wire-protocol section: a reply is the header
    [fuse_out_header {len: u32, error: i32, unique: u64}] followed by the
    payload of the reply kind, little-endian; an error reply carries the
    negated error code and no payload; the handshake reply carries
    [fuse_init_out]. *)
Fixpoint le_bytes (n : nat) (z : Z) : bytes :=
  match n with
  | O => []
  | S n' => z mod 256 :: le_bytes n' (z / 256)
  end.

Fixpoint from_le (bs : bytes) : Z :=
  match bs with
  | [] => 0
  | b :: bs' => b + 256 * from_le bs'
  end.

Definition reply_payload (m : ReplyMsg) : bytes :=
  match m with
  | ReplyError _ | ReplyOkEmpty => []
  | ReplyOkInit i =>
      le_bytes 4 (init_out_major i) ++ le_bytes 4 (init_out_minor i)
      ++ le_bytes 4 (init_out_max_readahead i) ++ le_bytes 4 (init_out_flags i)
      ++ le_bytes 4 (init_out_unused i) ++ le_bytes 4 (init_out_max_write i)
  end.

Definition reply_errno (m : ReplyMsg) : Z :=
  match m with ReplyError e => - e | _ => 0 end.

Definition FUSE_OUT_HEADER_SIZE : Z := 16.

(** Modelled from the spec: the bytes a reply object writes to its channel
    when it completes with [m]. *)
Definition encode_reply (r : ReplyObj) (m : ReplyMsg) : bytes :=
  let payload := reply_payload m in
  le_bytes 4 (FUSE_OUT_HEADER_SIZE + Z.of_nat (List.length payload))
  ++ le_bytes 4 (reply_errno m)
  ++ le_bytes 8 (reply_unique r)
  ++ payload.

(** The correlation id field of a reply, as the kernel reads it. *)
Definition out_header_unique (bs : bytes) : Z := from_le (firstn 8 (skipn 8 bs)).

(** Reply objects carried by a dispatch event. *)
Definition event_reply (e : Event) : option ReplyObj :=
  match e with
  | Invoke c => call_reply c
  | Send r _ => Some r
  end.

Definition outcome_trace {FS} (o : Outcome FS) : list Event :=
  match o with Done _ tr => tr | Panicked _ _ tr => tr end.

Definition outcome_session {FS} (o : Outcome FS) : Session FS :=
  match o with Done se _ => se | Panicked _ se _ => se end.

(** ** A sample filesystem for concrete runs

    Its state is the result its [init] hook returns: [None] accepts the
    mount, [Some err] refuses it with [err]. *)
Definition SampleFs := option Z.

#[export] Instance SampleFs_Filesystem : Filesystem SampleFs := {
  fs_init fs _ := (fs, match fs with None => Ok tt | Some e => Err e end);
  fs_destroy fs _ := fs;
  fs_call fs _ _ := fs
}.

Definition linux_cfg (buffer_size : Z) : Config :=
  mkConfig buffer_size (16 * 1024 * 1024) 7 31 false.

Definition sample_request (op : Operation) : Request :=
  mkRequest (mkChannelSender 3) (mkLlRequest 42 1 1000 1000 4242 op).

Definition sample_session (initialized destroyed : bool) : Session SampleFs :=
  mkSession None 0 0 initialized destroyed.

Definition sample_init_in (major minor readahead : Z) : fuse_init_in :=
  mk_fuse_init_in major minor readahead (Z.lor FUSE_ASYNC_READ (Z.shiftl 1 3)).

Definition sample_setattr_in (valid atime : Z) : fuse_setattr_in :=
  mk_fuse_setattr_in valid 7 4096 0 atime 0 0 0 420 1000 1000 0 0 0 0 0 0 0.

Definition sample_now : SystemTime := mkSystemTime 1700000000 0.

(** * Properties of the dispatcher *)

(** Reduce the session guards of a dispatch arm once the flags are known. *)
Ltac guards :=
  unfold guarded, before_init_guard, after_destroy_guard, reply_error.

Lemma version_rejected_iff (major minor : Z) :
  ((major <? 7) || ((major =? 7) && (minor <? 6))) = true <->
  major < 7 \/ (major = 7 /\ minor < 6).
Proof.
  destruct (Z.ltb_spec major 7), (Z.eqb_spec major 7), (Z.ltb_spec minor 6);
    simpl; split; intros; try lia; auto.
Qed.

Lemma version_accepted (major minor : Z) :
  7 < major \/ (major = 7 /\ 6 <= minor) ->
  ((major <? 7) || ((major =? 7) && (minor <? 6))) = false.
Proof.
  intro Hv. destruct ((major <? 7) || ((major =? 7) && (minor <? 6))) eqn:E; auto.
  apply version_rejected_iff in E. lia.
Qed.

Lemma as_u32_small (x : Z) : 0 <= x < 2 ^ 32 -> as_u32 x = x.
Proof. intro Hx. unfold as_u32, U32_MODULUS. apply Z.mod_small; lia. Qed.

(** Claim C1 (as amended). While the session is destroyed, every operation
    other than the handshake and the teardown is answered with an EIO
    error reply, leaves the session unchanged and calls no filesystem
    method. *)
Theorem dispatch_after_destroy_rejects (cfg : Config) (now : SystemTime)
    {FS : Type} `{Filesystem FS} (self : Request) (se : Session FS) :
  destroyed se = true ->
  (forall arg, operation (request self) <> Init arg) ->
  operation (request self) <> Destroy ->
  dispatch cfg now self se = Done se [Send (reply self) (ReplyError EIO)].
Proof.
  intros Hd Hi Hx. unfold dispatch.
  destruct (operation (request self)) eqn:Hop;
    try (exfalso; eapply Hi; reflexivity); try (exfalso; apply Hx; reflexivity);
    guards; rewrite Hd; destruct (initialized se); reflexivity.
Qed.

Lemma dispatch_after_destroy_rejects_witness :
  destroyed (sample_session true true) = true /\
  dispatch (linux_cfg 65536) sample_now (sample_request GetAttr) (sample_session true true)
  = Done (sample_session true true)
      [Send (reply (sample_request GetAttr)) (ReplyError EIO)].
Proof.
  split; [reflexivity|].
  apply dispatch_after_destroy_rejects; [reflexivity | simpl; discriminate | simpl; discriminate].
Defined.

(** Claim C1, counterexample. A handshake dispatched to a destroyed session
    is handled as a handshake: the filesystem init hook is called and the
    reply is a success, not an EIO error. *)
Lemma dispatch_after_destroy_init_counterexample :
  let se := sample_session true true in
  let req := sample_request (Init (sample_init_in 7 31 131072)) in
  let o := dispatch (linux_cfg 65536) sample_now req se in
  destroyed se = true /\
  In (Invoke FsInit) (outcome_trace o) /\
  ~ In (Send (reply req) (ReplyError EIO)) (outcome_trace o).
Proof.
  simpl. split; [reflexivity|]. split; [left; reflexivity|].
  intros [E | [E | []]]; discriminate.
Qed.

(** Claim C2. A handshake with an accepted version whose init hook succeeds
    is answered with readahead [min(kernel readahead, BUFFER_SIZE)] and the
    kernel's flags masked by [INIT_FLAGS]; the session records the version
    and becomes initialized. *)
Theorem init_success_negotiates (cfg : Config) (now : SystemTime)
    {FS : Type} `{Filesystem FS} (self : Request) (se : Session FS)
    (arg : fuse_init_in) (fs' : FS) :
  operation (request self) = Init arg ->
  7 < init_in_major arg \/ (init_in_major arg = 7 /\ 6 <= init_in_minor arg) ->
  fs_init (filesystem se) self = (fs', Ok tt) ->
  0 <= BUFFER_SIZE cfg < 2 ^ 32 ->
  exists init,
    dispatch cfg now self se =
      Done (mkSession fs' (init_in_major arg) (init_in_minor arg) true (destroyed se))
        [Invoke FsInit; Send (reply self) (ReplyOkInit init)] /\
    init_out_max_readahead init = Z.min (init_in_max_readahead arg) (BUFFER_SIZE cfg) /\
    init_out_flags init = Z.land (init_in_flags arg) (INIT_FLAGS cfg).
Proof.
  intros Hop Hv Hinit Hb. unfold dispatch. rewrite Hop. unfold dispatch_init.
  rewrite (version_accepted _ _ Hv). simpl. rewrite Hinit.
  eexists. split; [reflexivity|]. split; [|reflexivity].
  simpl. unfold negotiated_readahead. rewrite (as_u32_small _ Hb).
  destruct (Z.ltb_spec (BUFFER_SIZE cfg) (init_in_max_readahead arg)); lia.
Qed.

Lemma init_success_negotiates_witness :
  let req := sample_request (Init (sample_init_in 7 31 131072)) in
  let se := sample_session false false in
  (operation (request req) = Init (sample_init_in 7 31 131072) /\
   fs_init (filesystem se) req = (None, Ok tt) /\
   0 <= BUFFER_SIZE (linux_cfg 65536) < 2 ^ 32) /\
  exists init,
    dispatch (linux_cfg 65536) sample_now req se =
      Done (mkSession None 7 31 true false)
        [Invoke FsInit; Send (reply req) (ReplyOkInit init)] /\
    init_out_max_readahead init = Z.min 131072 65536 /\
    init_out_flags init = Z.land (init_in_flags (sample_init_in 7 31 131072))
                            (INIT_FLAGS (linux_cfg 65536)).
Proof.
  simpl. split; [split; [reflexivity | split; [reflexivity | lia]] |].
  apply (init_success_negotiates (linux_cfg 65536) sample_now
           (sample_request (Init (sample_init_in 7 31 131072)))
           (sample_session false false) (sample_init_in 7 31 131072) None);
    simpl; [reflexivity | lia | reflexivity | lia].
Defined.

(** Claim C3. A handshake advertising a version below 7.6 is answered with
    EPROTO; the session (in particular its initialized flag) is left as it
    was and the init hook is not called. *)
Theorem init_old_version_rejected (cfg : Config) (now : SystemTime)
    {FS : Type} `{Filesystem FS} (self : Request) (se : Session FS)
    (arg : fuse_init_in) :
  operation (request self) = Init arg ->
  init_in_major arg < 7 \/ (init_in_major arg = 7 /\ init_in_minor arg < 6) ->
  dispatch cfg now self se = Done se [Send (reply self) (ReplyError EPROTO)].
Proof.
  intros Hop Hv. unfold dispatch. rewrite Hop. unfold dispatch_init.
  apply version_rejected_iff in Hv. rewrite Hv. reflexivity.
Qed.

Lemma init_old_version_rejected_witness :
  let req := sample_request (Init (sample_init_in 7 5 131072)) in
  (7 < 7 \/ (7 = 7 /\ 5 < 6)) /\
  dispatch (linux_cfg 65536) sample_now req (sample_session false false)
  = Done (sample_session false false) [Send (reply req) (ReplyError EPROTO)] /\
  initialized (sample_session false false) = false.
Proof.
  simpl. split; [lia|]. split; [|reflexivity].
  apply (init_old_version_rejected _ _ _ _ (sample_init_in 7 5 131072));
    simpl; [reflexivity | lia].
Defined.

(** Claim C4. Before the handshake has succeeded, every operation other
    than the handshake is answered with EIO, calls no filesystem method and
    leaves the whole session unchanged. *)
Theorem dispatch_before_init_rejects (cfg : Config) (now : SystemTime)
    {FS : Type} `{Filesystem FS} (self : Request) (se : Session FS) :
  (forall arg, operation (request self) <> Init arg) ->
  initialized se = false ->
  dispatch cfg now self se = Done se [Send (reply self) (ReplyError EIO)].
Proof.
  intros Hi Hn. unfold dispatch.
  destruct (operation (request self)) eqn:Hop;
    try (exfalso; eapply Hi; reflexivity);
    guards; rewrite Hn; reflexivity.
Qed.

Lemma dispatch_before_init_rejects_witness :
  let req := sample_request (Lookup [97; 98]) in
  initialized (sample_session false false) = false /\
  dispatch (linux_cfg 65536) sample_now req (sample_session false false)
  = Done (sample_session false false) [Send (reply req) (ReplyError EIO)].
Proof.
  simpl. split; [reflexivity|].
  apply dispatch_before_init_rejects; [simpl; discriminate | reflexivity].
Defined.

(** Claim C5. In an initialized, not destroyed session a write whose payload
    length differs from the declared size aborts the dispatch (the
    [assert_eq!] panics) before any filesystem method is called; when they
    agree, [write] is called with the payload. *)
Theorem write_size_integrity (cfg : Config) (now : SystemTime)
    {FS : Type} `{Filesystem FS} (self : Request) (se : Session FS)
    (arg : fuse_write_in) (data : bytes) :
  initialized se = true ->
  destroyed se = false ->
  operation (request self) = Write arg data ->
  (Z.of_nat (List.length data) <> write_size arg ->
   exists msg, dispatch cfg now self se = Panicked msg se []) /\
  (Z.of_nat (List.length data) = write_size arg ->
   dispatch cfg now self se =
     invoke self se (FsWrite (nodeid (request self)) (write_fh arg)
                       (u64_as_i64 (write_offset arg)) data (write_flags arg) (reply self))).
Proof.
  intros Hi Hd Hop. unfold dispatch. rewrite Hop. guards. rewrite Hi, Hd. simpl.
  split; intro E.
  - apply Z.eqb_neq in E. rewrite E. eexists; reflexivity.
  - apply Z.eqb_eq in E. rewrite E. reflexivity.
Qed.

Lemma write_size_integrity_witness :
  let wr := mk_fuse_write_in 5 0 3 0 in
  let req := sample_request (Write wr [1; 2]) in
  (initialized (sample_session true false) = true /\
   destroyed (sample_session true false) = false) /\
  exists msg,
    dispatch (linux_cfg 65536) sample_now req (sample_session true false)
    = Panicked msg (sample_session true false) [].
Proof.
  simpl. split; [split; reflexivity|].
  apply (write_size_integrity (linux_cfg 65536) sample_now
           (sample_request (Write (mk_fuse_write_in 5 0 3 0) [1; 2]))
           (sample_session true false) (mk_fuse_write_in 5 0 3 0) [1; 2]);
    [reflexivity | reflexivity | reflexivity | simpl; discriminate].
Defined.

(** ** Correlation ids of replies *)

Lemma le_bytes_length (n : nat) (z : Z) : List.length (le_bytes n z) = n.
Proof. revert z. induction n; intro z; simpl; auto. Qed.

Lemma from_le_le_bytes (n : nat) (z : Z) : from_le (le_bytes n z) = z mod 2 ^ (8 * Z.of_nat n).
Proof.
  revert z. induction n as [|n IH]; intro z.
  - simpl. rewrite Z.mod_1_r. reflexivity.
  - cbn [le_bytes from_le]. rewrite IH.
    replace (8 * Z.of_nat (S n)) with (8 + 8 * Z.of_nat n) by lia.
    rewrite Z.pow_add_r by lia.
    rewrite (Z.rem_mul_r z (2 ^ 8) (2 ^ (8 * Z.of_nat n))) by (try apply Z.pow_pos_nonneg; lia).
    reflexivity.
Qed.

Lemma out_header_unique_encode (r : ReplyObj) (m : ReplyMsg) :
  out_header_unique (encode_reply r m) = reply_unique r mod 2 ^ 64.
Proof.
  unfold out_header_unique, encode_reply.
  change (firstn 8 (skipn 8 (le_bytes 4 (FUSE_OUT_HEADER_SIZE + Z.of_nat (List.length (reply_payload m)))
     ++ le_bytes 4 (reply_errno m) ++ le_bytes 8 (reply_unique r) ++ reply_payload m)))
    with (firstn 8 (le_bytes 8 (reply_unique r) ++ reply_payload m)).
  rewrite firstn_app, le_bytes_length, Nat.sub_diag. simpl firstn at 2.
  rewrite app_nil_r, firstn_all2 by (rewrite le_bytes_length; lia).
  rewrite from_le_le_bytes. reflexivity.
Qed.

(** Every reply object in a trace is bound to correlation id [u]. *)
Definition replies_bound (u : Z) (tr : list Event) : Prop :=
  forall e r, In e tr -> event_reply e = Some r -> reply_unique r = u.

Definition call_bound (u : Z) (c : FsCall) : Prop :=
  forall r, call_reply c = Some r -> reply_unique r = u.

Lemma replies_bound_nil (u : Z) : replies_bound u [].
Proof. intros e r []. Qed.

Lemma replies_bound_send (self : Request) (m : ReplyMsg) :
  replies_bound (unique (request self)) [Send (reply self) m].
Proof. intros e r [<- | []] E. injection E as <-. reflexivity. Qed.

Lemma replies_bound_invoke {FS} `{Filesystem FS} (self : Request) (se : Session FS) (c : FsCall) :
  call_bound (unique (request self)) c ->
  replies_bound (unique (request self)) (outcome_trace (invoke self se c)).
Proof. intros Hc e r [<- | []] E. apply Hc, E. Qed.

Lemma replies_bound_error {FS} (self : Request) (se : Session FS) (err : Z) :
  replies_bound (unique (request self)) (outcome_trace (reply_error self se err)).
Proof. apply replies_bound_send. Qed.

Lemma replies_bound_before_init {FS} (self : Request) (se : Session FS) (k : Outcome FS) :
  replies_bound (unique (request self)) (outcome_trace k) ->
  replies_bound (unique (request self)) (outcome_trace (before_init_guard self se k)).
Proof.
  intro Hk. unfold before_init_guard. destruct (negb (initialized se)); auto.
  apply replies_bound_error.
Qed.

Lemma replies_bound_guarded {FS} (self : Request) (se : Session FS) (k : Outcome FS) :
  replies_bound (unique (request self)) (outcome_trace k) ->
  replies_bound (unique (request self)) (outcome_trace (guarded self se k)).
Proof.
  intro Hk. unfold guarded. apply replies_bound_before_init.
  unfold after_destroy_guard. destruct (destroyed se); auto. apply replies_bound_error.
Qed.

Lemma setattr_call_reply (cfg : Config) (now : SystemTime) (ino : Z)
    (arg : fuse_setattr_in) (r : ReplyObj) (c : FsCall) :
  setattr_call cfg now ino arg r = Ret c -> call_reply c = Some r.
Proof.
  unfold setattr_call, bind.
  destruct (time_bit _ _ _ _); try discriminate.
  destruct (time_bit _ _ _ _); try discriminate.
  destruct (get_macos_setattr cfg now arg) as [[[[? ?] ?] ?] |]; try discriminate.
  intro E. injection E as <-. reflexivity.
Qed.

Lemma dispatch_replies_bound (cfg : Config) (now : SystemTime)
    {FS : Type} `{Filesystem FS} (self : Request) (se : Session FS) :
  replies_bound (unique (request self)) (outcome_trace (dispatch cfg now self se)).
Proof.
  unfold dispatch. cbv zeta.
  destruct (operation (request self)) eqn:Hop.
  1: { (* Init *)
    unfold dispatch_init.
    destruct (_ || _); [apply replies_bound_send|].
    destruct (fs_init _ self) as [fs' [t | e]];
      intros ev r Hin E; simpl in Hin;
      destruct Hin as [<- | [<- | []]]; try discriminate;
      injection E as <-; reflexivity. }
  1: { (* Destroy *)
    apply replies_bound_before_init. unfold dispatch_destroy.
    intros ev r Hin E; simpl in Hin;
      destruct Hin as [<- | [<- | []]]; try discriminate;
      injection E as <-; reflexivity. }
  (* every other arm is guarded *)
  all: apply replies_bound_guarded.
  all: try apply replies_bound_error.
  all: try (apply replies_bound_invoke; intros r E; injection E as <-; reflexivity).
  all: try (apply replies_bound_invoke; intros r E; discriminate).
  + (* SetAttr *)
    unfold run_exec, bind.
    destruct (setattr_call cfg now _ arg (reply self)) as [c|] eqn:Ec;
      [| apply replies_bound_nil].
    apply replies_bound_invoke. intros r E.
    apply setattr_call_reply in Ec. rewrite Ec in E. injection E as <-. reflexivity.
  + (* Write *)
    destruct (_ =? _); [| apply replies_bound_nil].
    apply replies_bound_invoke; intros r E; injection E as <-; reflexivity.
  + (* SetXAttr *)
    destruct (_ =? _); [| apply replies_bound_nil].
    apply replies_bound_invoke; intros r E; injection E as <-; reflexivity.
Qed.

(** Claim C6. Every reply object a dispatch creates, whether handed to a
    filesystem method or completed by the dispatcher itself, is bound to the
    request's correlation id, and the bytes it writes carry that id
    unchanged in the correlation-id field of the reply header. *)
Theorem dispatch_replies_echo_unique (cfg : Config) (now : SystemTime)
    {FS : Type} `{Filesystem FS} (self : Request) (se : Session FS) :
  0 <= unique (request self) < 2 ^ 64 ->
  forall e r, In e (outcome_trace (dispatch cfg now self se)) ->
  event_reply e = Some r ->
  reply_unique r = unique (request self) /\
  forall m, out_header_unique (encode_reply r m) = unique (request self).
Proof.
  intros Hu e r Hin Her.
  pose proof (dispatch_replies_bound cfg now self se e r Hin Her) as Hr.
  split; [exact Hr|]. intro m.
  rewrite out_header_unique_encode, Hr. apply Z.mod_small. exact Hu.
Qed.

Lemma dispatch_replies_echo_unique_witness :
  let rd := ReplyDirectory 42 (mkChannelSender 3) 4096 in
  ((0 <= 42 < 2 ^ 64) /\
   In (Invoke (FsReadDir 1 9 0 rd))
     (outcome_trace (dispatch (linux_cfg 65536) sample_now
        (sample_request (ReadDir (mk_fuse_read_in 9 0 4096))) (sample_session true false)))) /\
  reply_unique rd = 42 /\
  forall m, out_header_unique (encode_reply rd m) = 42.
Proof.
  intro rd. split; [split; [lia | simpl; left; reflexivity] |].
  exact (dispatch_replies_echo_unique (linux_cfg 65536) sample_now
           (sample_request (ReadDir (mk_fuse_read_in 9 0 4096)))
           (sample_session true false) ltac:(simpl; lia)
           (Invoke (FsReadDir 1 9 0 rd)) rd ltac:(simpl; left; reflexivity) eq_refl).
Defined.

(** ** Set-attributes *)

Lemma opt_bit_none_iff {A : Type} (valid bit : Z) (v : A) :
  opt_bit valid bit v = None <-> Z.land valid bit = 0.
Proof.
  unfold opt_bit. destruct (Z.eqb_spec (Z.land valid bit) 0); split; intro; congruence.
Qed.

Lemma opt_bit_some_iff {A : Type} (valid bit : Z) (v : A) :
  opt_bit valid bit v = Some v <-> Z.land valid bit <> 0.
Proof.
  unfold opt_bit. destruct (Z.eqb_spec (Z.land valid bit) 0); split; intro; congruence.
Qed.

Lemma time_bit_none_iff (valid bit secs nanos : Z) (t : option SystemTime) :
  time_bit valid bit secs nanos = Ret t -> (t = None <-> Z.land valid bit = 0).
Proof.
  unfold time_bit, bind.
  destruct (Z.eqb_spec (Z.land valid bit) 0) as [E | E].
  - intro R. injection R as <-. tauto.
  - destruct (epoch_plus secs nanos); intro R; [injection R as <- | discriminate].
    split; intro; congruence.
Qed.

(** When the set-attributes arm does not panic (Linux build), each of mode,
    uid, gid, size, atime, mtime and fh is present exactly when its
    validity bit is set, and the macOS-only fields are absent. *)
Lemma setattr_call_presence (cfg : Config) (now : SystemTime) (ino : Z)
    (arg : fuse_setattr_in) (r : ReplyObj) (c : FsCall) :
  target_macos cfg = false ->
  setattr_call cfg now ino arg r = Ret c ->
  let v := setattr_valid arg in
  exists atime mtime,
    c = FsSetAttr ino (opt_bit v FATTR_MODE (setattr_mode arg))
          (opt_bit v FATTR_UID (setattr_uid arg)) (opt_bit v FATTR_GID (setattr_gid arg))
          (opt_bit v FATTR_SIZE (setattr_size arg)) atime mtime
          (opt_bit v FATTR_FH (setattr_fh arg)) None None None None r /\
    (atime = None <-> Z.land v FATTR_ATIME = 0) /\
    (mtime = None <-> Z.land v FATTR_MTIME = 0).
Proof.
  intros Hmac. unfold setattr_call, bind, get_macos_setattr. rewrite Hmac.
  destruct (time_bit _ FATTR_ATIME _ _) as [at_|] eqn:Ea; [|discriminate].
  destruct (time_bit _ FATTR_MTIME _ _) as [mt|] eqn:Em; [|discriminate].
  intro R. injection R as <-. exists at_, mt. split; [reflexivity|].
  split; [exact (time_bit_none_iff _ _ _ _ _ Ea) | exact (time_bit_none_iff _ _ _ _ _ Em)].
Qed.

(** Claim C7, failing input. With the access-time bit set and an access
    time of [2^64 - 1] seconds (a pre-1970 time as the kernel encodes it),
    [UNIX_EPOCH + Duration::new(..)] overflows and the dispatch panics
    before [setattr] is called, so no attribute reaches the filesystem. *)
Lemma setattr_atime_overflow_panics :
  exists msg,
    dispatch (linux_cfg 65536) sample_now
      (sample_request (SetAttr (sample_setattr_in FATTR_ATIME (2 ^ 64 - 1))))
      (sample_session true false)
    = Panicked msg (sample_session true false) [].
Proof. eexists. vm_compute. reflexivity. Qed.

(** ** Forget, interrupt and a failed init hook *)

(** Claim C8. A forget dispatched to an initialized, not destroyed session
    calls the filesystem's [forget] with the node id and lookup count and
    creates no reply object, so nothing is written to the channel. *)
Theorem forget_no_reply (cfg : Config) (now : SystemTime)
    {FS : Type} `{Filesystem FS} (self : Request) (se : Session FS) (arg : fuse_forget_in) :
  initialized se = true ->
  destroyed se = false ->
  operation (request self) = Forget arg ->
  dispatch cfg now self se =
    invoke self se (FsForget (nodeid (request self)) (forget_nlookup arg)) /\
  forall e, In e (outcome_trace (dispatch cfg now self se)) -> event_reply e = None.
Proof.
  intros Hi Hd Hop.
  assert (E : dispatch cfg now self se =
                invoke self se (FsForget (nodeid (request self)) (forget_nlookup arg))).
  { unfold dispatch. rewrite Hop. guards. rewrite Hi, Hd. reflexivity. }
  split; [exact E|]. rewrite E. intros e [<- | []]. reflexivity.
Qed.

Lemma forget_no_reply_witness :
  let req := sample_request (Forget (mk_fuse_forget_in 2)) in
  (initialized (sample_session true false) = true /\
   destroyed (sample_session true false) = false) /\
  dispatch (linux_cfg 65536) sample_now req (sample_session true false) =
    invoke req (sample_session true false) (FsForget 1 2) /\
  forall e, In e (outcome_trace (dispatch (linux_cfg 65536) sample_now req
                                  (sample_session true false))) -> event_reply e = None.
Proof.
  intro req. split; [split; reflexivity|].
  exact (forget_no_reply (linux_cfg 65536) sample_now req (sample_session true false)
           (mk_fuse_forget_in 2) eq_refl eq_refl eq_refl).
Defined.

(** Claim C9 (as amended). An interrupt is never forwarded to the
    filesystem: it is answered with one error reply, ENOSYS in an
    initialized, not destroyed session and EIO before the handshake or
    after teardown, and the session is left unchanged. *)
Theorem interrupt_not_implemented (cfg : Config) (now : SystemTime)
    {FS : Type} `{Filesystem FS} (c : ChannelSender) (u n ui gi p : Z)
    (arg : fuse_interrupt_in) (se : Session FS) :
  dispatch cfg now (mkRequest c (mkLlRequest u n ui gi p (Interrupt arg))) se =
    Done se [Send (ReplyOf u c)
               (ReplyError (if initialized se && negb (destroyed se) then ENOSYS else EIO))].
Proof.
  unfold dispatch. simpl. guards.
  destruct (initialized se), (destroyed se); reflexivity.
Qed.

(** Claim C9, counterexample. An interrupt reaching a session before the
    handshake is answered with EIO, not with ENOSYS. *)
Lemma interrupt_before_init_counterexample :
  let req := sample_request (Interrupt (mk_fuse_interrupt_in 41)) in
  dispatch (linux_cfg 65536) sample_now req (sample_session false false) =
    Done (sample_session false false) [Send (reply req) (ReplyError EIO)] /\
  EIO <> ENOSYS.
Proof. split; [reflexivity | discriminate]. Qed.

(** Claim C10. When the version check passes but the init hook fails, the
    session has already recorded the kernel's major and minor version, the
    initialized flag is left as it was, and the reply carries the hook's
    error. *)
Theorem init_hook_error_keeps_version (cfg : Config) (now : SystemTime)
    {FS : Type} `{Filesystem FS} (self : Request) (se : Session FS)
    (arg : fuse_init_in) (fs' : FS) (err : Z) :
  operation (request self) = Init arg ->
  7 < init_in_major arg \/ (init_in_major arg = 7 /\ 6 <= init_in_minor arg) ->
  fs_init (filesystem se) self = (fs', Err err) ->
  dispatch cfg now self se =
    Done (mkSession fs' (init_in_major arg) (init_in_minor arg) (initialized se) (destroyed se))
      [Invoke FsInit; Send (reply self) (ReplyError err)].
Proof.
  intros Hop Hv Hinit. unfold dispatch. rewrite Hop. unfold dispatch_init.
  rewrite (version_accepted _ _ Hv). simpl. rewrite Hinit. reflexivity.
Qed.

Lemma init_hook_error_keeps_version_witness :
  let req := sample_request (Init (sample_init_in 7 31 131072)) in
  let se := mkSession (Some 19) 0 0 false false : Session SampleFs in
  (7 < 7 \/ (7 = 7 /\ 6 <= 31)) /\
  dispatch (linux_cfg 65536) sample_now req se =
    Done (mkSession (Some 19) 7 31 false false) [Invoke FsInit; Send (reply req) (ReplyError 19)].
Proof.
  simpl. split; [lia|].
  apply (init_hook_error_keeps_version (linux_cfg 65536) sample_now
           (sample_request (Init (sample_init_in 7 31 131072)))
           (mkSession (Some 19) 0 0 false false) (sample_init_in 7 31 131072) (Some 19) 19);
    simpl; [reflexivity | lia | reflexivity].
Defined.

(** * Further properties of the dispatcher *)

(** Split every conditional and every [Exec] / result match in the goal. *)
Ltac split_dispatch :=
  repeat (match goal with
          | |- context [setattr_call ?a ?b ?c ?d ?e] => destruct (setattr_call a b c d e) eqn:?
          | |- context [if ?b then _ else _] => destruct b eqn:?
          | |- context [match ?x with Ret _ => _ | Abort _ => _ end] => destruct x
          | |- context [match ?x with Ok _ => _ | Err _ => _ end] => destruct x
          | |- context [match fs_init ?f ?s with pair _ _ => _ end] => destruct (fs_init f s)
          end; simpl).

Ltac unfold_arms :=
  unfold dispatch, dispatch_init, dispatch_destroy, guarded, before_init_guard,
    after_destroy_guard, reply_error, invoke, run_exec, bind; cbv zeta.

(** Once the initialized or destroyed flag is set, no dispatch clears it,
    whether it returns or panics. *)
Theorem dispatch_flags_monotone (cfg : Config) (now : SystemTime)
    {FS : Type} `{Filesystem FS} (self : Request) (se : Session FS) :
  let se' := outcome_session (dispatch cfg now self se) in
  (initialized se = true -> initialized se' = true) /\
  (destroyed se = true -> destroyed se' = true).
Proof.
  unfold_arms. destruct (operation (request self)); split_dispatch;
    intuition (try congruence).
Qed.

(** Only a handshake changes the recorded protocol version: every other
    operation leaves [proto_major] and [proto_minor] as they were. *)
Theorem dispatch_proto_only_by_init (cfg : Config) (now : SystemTime)
    {FS : Type} `{Filesystem FS} (self : Request) (se : Session FS) :
  (forall arg, operation (request self) <> Init arg) ->
  proto_major (outcome_session (dispatch cfg now self se)) = proto_major se /\
  proto_minor (outcome_session (dispatch cfg now self se)) = proto_minor se.
Proof.
  intro Hi. unfold_arms. destruct (operation (request self)) eqn:Hop;
    try (exfalso; eapply Hi; reflexivity); split_dispatch; auto.
Qed.

Lemma dispatch_proto_only_by_init_witness :
  (forall arg, operation (request (sample_request Destroy)) <> Init arg) /\
  proto_major (outcome_session (dispatch (linux_cfg 65536) sample_now
                                  (sample_request Destroy) (sample_session true false)))
    = proto_major (sample_session true false) /\
  proto_minor (outcome_session (dispatch (linux_cfg 65536) sample_now
                                  (sample_request Destroy) (sample_session true false)))
    = proto_minor (sample_session true false).
Proof.
  assert (Hi : forall arg, operation (request (sample_request Destroy)) <> Init arg)
    by (intros arg; simpl; discriminate).
  split; [exact Hi|].
  exact (dispatch_proto_only_by_init (linux_cfg 65536) sample_now
           (sample_request Destroy) (sample_session true false) Hi).
Defined.

(** A dispatch that calls no filesystem method leaves the session exactly
    as it was (the rejections, the interrupt reply and the panics). *)
Theorem dispatch_no_call_no_change (cfg : Config) (now : SystemTime)
    {FS : Type} `{Filesystem FS} (self : Request) (se : Session FS) :
  (forall c, ~ In (Invoke c) (outcome_trace (dispatch cfg now self se))) ->
  outcome_session (dispatch cfg now self se) = se.
Proof.
  unfold_arms. destruct (operation (request self)); split_dispatch; intro Hn;
    try reflexivity; exfalso; eapply Hn; left; reflexivity.
Qed.

Lemma dispatch_no_call_no_change_witness :
  let req := sample_request (Interrupt (mk_fuse_interrupt_in 7)) in
  (forall c, ~ In (Invoke c) (outcome_trace (dispatch (linux_cfg 65536) sample_now req
                                               (sample_session true false)))) /\
  outcome_session (dispatch (linux_cfg 65536) sample_now req (sample_session true false))
    = sample_session true false.
Proof.
  intro req.
  assert (Hn : forall c, ~ In (Invoke c) (outcome_trace (dispatch (linux_cfg 65536) sample_now
                                               req (sample_session true false)))).
  { intros c Hin. simpl in Hin. destruct Hin as [E | []]. discriminate. }
  split; [exact Hn|].
  exact (dispatch_no_call_no_change (linux_cfg 65536) sample_now req _ Hn).
Defined.

Definition is_reply (e : Event) : bool :=
  match event_reply e with Some _ => true | None => false end.

Definition is_invoke (e : Event) : bool :=
  match e with Invoke _ => true | Send _ _ => false end.

(** Number of reply objects and of filesystem calls in a trace. *)
Definition replies_created (tr : list Event) : nat := List.length (filter is_reply tr).
Definition calls_made (tr : list Event) : nat := List.length (filter is_invoke tr).

(** Each dispatch that returns creates exactly one reply object (completed
    by the dispatcher or handed to the filesystem), except a forget in an
    initialized, not destroyed session, which creates none; a dispatch that
    panics has done nothing. *)
Theorem dispatch_exactly_one_reply (cfg : Config) (now : SystemTime)
    {FS : Type} `{Filesystem FS} (self : Request) (se : Session FS) :
  match dispatch cfg now self se with
  | Done _ tr =>
      replies_created tr =
        match operation (request self) with
        | Forget _ => if initialized se && negb (destroyed se) then 0%nat else 1%nat
        | _ => 1%nat
        end
  | Panicked _ _ tr => tr = []
  end.
Proof.
  destruct se as [f pm pn i d]. unfold_arms. simpl.
  destruct (operation (request self)); destruct i, d; simpl; split_dispatch; try reflexivity;
    unfold replies_created, is_reply; simpl; erewrite setattr_call_reply by eassumption; reflexivity.
Qed.

(** A dispatch calls at most one filesystem method. *)
Theorem dispatch_at_most_one_call (cfg : Config) (now : SystemTime)
    {FS : Type} `{Filesystem FS} (self : Request) (se : Session FS) :
  (calls_made (outcome_trace (dispatch cfg now self se)) <= 1)%nat.
Proof.
  unfold_arms. destruct (operation (request self)); split_dispatch;
    unfold calls_made; simpl; lia.
Qed.

(** ** Bit tests *)

Lemma land_shiftl1 (a k : Z) :
  0 <= k -> Z.land a (Z.shiftl 1 k) = if Z.testbit a k then Z.shiftl 1 k else 0.
Proof.
  intro Hk. rewrite Z.shiftl_1_l.
  apply Z.bits_inj'. intros n Hn. rewrite Z.land_spec, Z.pow2_bits_eqb by lia.
  destruct (Z.eqb_spec k n) as [<- | Ne].
  - destruct (Z.testbit a k); simpl;
      [rewrite Z.pow2_bits_eqb, Z.eqb_refl by lia | rewrite Z.bits_0]; reflexivity.
  - rewrite andb_false_r. destruct (Z.testbit a k);
      [rewrite Z.pow2_bits_eqb by lia; symmetry; apply Z.eqb_neq; exact Ne | symmetry; apply Z.bits_0].
Qed.

Lemma opt_bit_testbit {A : Type} (valid k : Z) (v : A) :
  0 <= k -> opt_bit valid (Z.shiftl 1 k) v = if Z.testbit valid k then Some v else None.
Proof.
  intro Hk. unfold opt_bit. rewrite land_shiftl1 by exact Hk.
  destruct (Z.testbit valid k); [|reflexivity].
  rewrite Z.shiftl_1_l. destruct (Z.eqb_spec (2 ^ k) 0); [|reflexivity].
  pose proof (Z.pow_pos_nonneg 2 k ltac:(lia) Hk). lia.
Qed.

Lemma flag_bit_testbit (flags k : Z) :
  0 <= k -> flag_bit flags (Z.shiftl 1 k) = Z.testbit flags k.
Proof.
  intro Hk. unfold flag_bit. rewrite land_shiftl1 by exact Hk.
  destruct (Z.testbit flags k); [|reflexivity].
  rewrite Z.shiftl_1_l. destruct (Z.eqb_spec (2 ^ k) 0); [|reflexivity].
  pose proof (Z.pow_pos_nonneg 2 k ltac:(lia) Hk). lia.
Qed.

(** ** Arms of the active session

    In an initialized, not destroyed session the guards let every
    operation through to its own arm. *)
Lemma guarded_active {FS} (self : Request) (se : Session FS) (k : Outcome FS) :
  initialized se = true -> destroyed se = false -> guarded self se k = k.
Proof. intros Hi Hd. guards. rewrite Hi, Hd. reflexivity. Qed.



(** Release, fsync and fsyncdir in an active session: the flush request is
    bit 0 of [release_flags] and datasync is bit 0 of [fsync_flags], both
    surfaced as booleans with the other fields passed through. *)
Theorem release_fsync_flag_bits (cfg : Config) (now : SystemTime)
    {FS : Type} `{Filesystem FS} (self : Request) (se : Session FS) :
  initialized se = true -> destroyed se = false ->
  let ino := nodeid (request self) in
  (forall arg, operation (request self) = Release arg ->
     dispatch cfg now self se =
       invoke self se (FsRelease ino (release_fh arg) (release_flags arg)
                         (release_lock_owner arg)
                         (Z.testbit (release_release_flags arg) 0) (reply self))) /\
  (forall arg, operation (request self) = FSync arg ->
     dispatch cfg now self se =
       invoke self se (FsFSync ino (fsync_fh arg) (Z.testbit (fsync_fsync_flags arg) 0)
                         (reply self))) /\
  (forall arg, operation (request self) = FSyncDir arg ->
     dispatch cfg now self se =
       invoke self se (FsFSyncDir ino (fsync_fh arg) (Z.testbit (fsync_fsync_flags arg) 0)
                         (reply self))).
Proof.
  intros Hi Hd ino.
  split; [|split]; intros arg Hop; unfold dispatch; rewrite Hop; cbv zeta;
    rewrite guarded_active by assumption.
  - unfold FUSE_RELEASE_FLUSH. rewrite flag_bit_testbit by lia. reflexivity.
  - change 1 with (Z.shiftl 1 0). rewrite flag_bit_testbit by lia. reflexivity.
  - change 1 with (Z.shiftl 1 0). rewrite flag_bit_testbit by lia. reflexivity.
Qed.

Lemma release_fsync_flag_bits_witness :
  let req := sample_request (FSync (mk_fuse_fsync_in 3 1)) in
  (initialized (sample_session true false) = true /\
   destroyed (sample_session true false) = false) /\
  dispatch (linux_cfg 65536) sample_now req (sample_session true false) =
    invoke req (sample_session true false) (FsFSync 1 3 true (reply req)).
Proof.
  intro req. split; [split; reflexivity|].
  exact (proj1 (proj2 (release_fsync_flag_bits (linux_cfg 65536) sample_now req
                         (sample_session true false) eq_refl eq_refl))
           (mk_fuse_fsync_in 3 1) eq_refl).
Defined.

Lemma u64_as_i64_spec (x : Z) :
  0 <= x < 2 ^ 64 ->
  - 2 ^ 63 <= u64_as_i64 x < 2 ^ 63 /\ u64_as_i64 x mod 2 ^ 64 = x /\
  (u64_as_i64 x < 0 <-> 2 ^ 63 <= x).
Proof.
  intro Hx. unfold u64_as_i64, U64_MODULUS.
  destruct (Z.ltb_spec x (2 ^ 63)).
  - split; [lia|]. split; [apply Z.mod_small; lia | lia].
  - split; [lia|]. split; [|lia].
    replace (x - 2 ^ 64) with (x + (-1) * 2 ^ 64) by lia.
    rewrite Z.mod_add by lia. apply Z.mod_small; lia.
Qed.

(** Read and read-directory in an active session: the 64-bit unsigned
    offset is passed as the signed value with the same bits (offsets from
    [2^63] on become negative); the directory listing gets a directory
    reply bound to the request's id and channel with the kernel's read size
    as its byte budget. *)
Theorem read_readdir_args (cfg : Config) (now : SystemTime)
    {FS : Type} `{Filesystem FS} (self : Request) (se : Session FS) (arg : fuse_read_in) :
  initialized se = true -> destroyed se = false ->
  0 <= read_offset arg < 2 ^ 64 ->
  let ino := nodeid (request self) in
  exists off,
    - 2 ^ 63 <= off < 2 ^ 63 /\ off mod 2 ^ 64 = read_offset arg /\
    (off < 0 <-> 2 ^ 63 <= read_offset arg) /\
    (operation (request self) = Read arg ->
     dispatch cfg now self se =
       invoke self se (FsRead ino (read_fh arg) off (read_size arg) (reply self))) /\
    (operation (request self) = ReadDir arg ->
     dispatch cfg now self se =
       invoke self se (FsReadDir ino (read_fh arg) off
                         (ReplyDirectory (unique (request self)) (ch self) (read_size arg)))).
Proof.
  intros Hi Hd Ho ino. exists (u64_as_i64 (read_offset arg)).
  destruct (u64_as_i64_spec _ Ho) as [R1 [R2 R3]].
  split; [exact R1|]. split; [exact R2|]. split; [exact R3|].
  split; intro Hop; unfold dispatch; rewrite Hop; cbv zeta;
    rewrite guarded_active by assumption; reflexivity.
Qed.

Lemma read_readdir_args_witness :
  let ra := mk_fuse_read_in 3 (2 ^ 64 - 1) 4096 in
  let req := sample_request (Read ra) in
  ((initialized (sample_session true false) = true /\
    destroyed (sample_session true false) = false) /\ 0 <= 2 ^ 64 - 1 < 2 ^ 64) /\
  exists off,
    - 2 ^ 63 <= off < 2 ^ 63 /\ off mod 2 ^ 64 = 2 ^ 64 - 1 /\
    (off < 0 <-> 2 ^ 63 <= 2 ^ 64 - 1) /\
    (operation (request req) = Read ra ->
     dispatch (linux_cfg 65536) sample_now req (sample_session true false) =
       invoke req (sample_session true false) (FsRead 1 3 off 4096 (reply req))) /\
    (operation (request req) = ReadDir ra ->
     dispatch (linux_cfg 65536) sample_now req (sample_session true false) =
       invoke req (sample_session true false)
         (FsReadDir 1 3 off (ReplyDirectory 42 (mkChannelSender 3) 4096))).
Proof.
  intros ra req. split; [split; [split; reflexivity | lia]|].
  exact (read_readdir_args (linux_cfg 65536) sample_now req (sample_session true false) ra
           eq_refl eq_refl ltac:(simpl; lia)).
Defined.





(** ** Timestamps of set-attributes *)

(** Normalisation and overflow of [epoch_plus] (shared lemma). *)
Lemma epoch_plus_normalised (secs nanos : Z) :
  0 <= nanos ->
  let s := secs + nanos / NANOS_PER_SEC in
  (s <= I64_MAX -> epoch_plus secs nanos = Ret (mkSystemTime s (nanos mod NANOS_PER_SEC))) /\
  (I64_MAX < s -> exists msg, epoch_plus secs nanos = Abort msg).
Proof.
  intros Hn s. unfold s, epoch_plus, bind, expect, Duration_new, SystemTime_checked_add.
  cbn [UNIX_EPOCH tv_sec tv_nsec dur_secs dur_nanos].
  pose proof (Z.mod_pos_bound nanos NANOS_PER_SEC ltac:(unfold NANOS_PER_SEC; lia)) as Hm.
  unfold I64_MAX, U64_MODULUS in *.
  destruct (Z.ltb_spec nanos NANOS_PER_SEC) as [Hlt | Hge].
  - rewrite (Z.div_small nanos) by lia. rewrite (Z.mod_small nanos) by lia.
    rewrite Z.add_0_r. cbn [dur_secs dur_nanos].
    destruct (Z.ltb_spec (2 ^ 63 - 1) (0 + secs)); [split; [lia | eexists; reflexivity]|].
    destruct (Z.leb_spec NANOS_PER_SEC (0 + nanos)); [lia|].
    split; [intros _; do 2 f_equal; lia | lia].
  - destruct (Z.ltb_spec (secs + nanos / NANOS_PER_SEC) (2 ^ 64)).
    + cbn [dur_secs dur_nanos].
      destruct (Z.ltb_spec (2 ^ 63 - 1) (0 + (secs + nanos / NANOS_PER_SEC)));
        [split; [lia | eexists; reflexivity]|].
      destruct (Z.leb_spec NANOS_PER_SEC (0 + nanos mod NANOS_PER_SEC)); [lia|].
      split; [intros _; do 2 f_equal; lia | lia].
    + split; [lia | eexists; reflexivity].
Qed.

(** [UNIX_EPOCH + Duration::new(secs, nanos)] (access and modification
    time): the nanoseconds carry into the seconds; the result is that
    normalised time when its seconds fit in an [i64], and a panic
    otherwise. *)
Theorem epoch_plus_spec (secs nanos : Z) :
  0 <= nanos ->
  let s := secs + nanos / NANOS_PER_SEC in
  (s <= I64_MAX -> epoch_plus secs nanos = Ret (mkSystemTime s (nanos mod NANOS_PER_SEC))) /\
  (I64_MAX < s -> exists msg, epoch_plus secs nanos = Abort msg).
Proof. exact (epoch_plus_normalised secs nanos). Qed.

Lemma epoch_plus_spec_witness :
  0 <= 1500000000 /\
  epoch_plus 10 1500000000 = Ret (mkSystemTime 11 500000000).
Proof.
  split; [lia|].
  exact (proj1 (epoch_plus_spec 10 1500000000 ltac:(lia)) ltac:(vm_compute; discriminate)).
Defined.

(** The clamped macOS variant ([checked_add], falling back to
    [SystemTime::now()]): for a [u64] second count it yields the normalised
    time when it fits in an [i64] and [now] when it does not, unless the
    nanosecond carry overflows [u64], where [Duration::new] still panics. *)
Theorem epoch_checked_or_now_spec (now : SystemTime) (secs nanos : Z) :
  0 <= secs < 2 ^ 64 -> 0 <= nanos ->
  let s := secs + nanos / NANOS_PER_SEC in
  (s < 2 ^ 64 ->
   epoch_checked_or_now now secs nanos =
     Ret (if s <=? I64_MAX then mkSystemTime s (nanos mod NANOS_PER_SEC) else now)) /\
  (2 ^ 64 <= s -> exists msg, epoch_checked_or_now now secs nanos = Abort msg).
Proof.
  intros Hs Hn s. unfold s, epoch_checked_or_now, bind, expect, Duration_new,
    SystemTime_checked_add.
  cbn [UNIX_EPOCH tv_sec tv_nsec dur_secs dur_nanos].
  pose proof (Z.mod_pos_bound nanos NANOS_PER_SEC ltac:(unfold NANOS_PER_SEC; lia)) as Hm.
  unfold I64_MAX, U64_MODULUS in *.
  destruct (Z.ltb_spec nanos NANOS_PER_SEC) as [Hlt | Hge].
  - rewrite (Z.div_small nanos) by lia. rewrite (Z.mod_small nanos) by lia.
    rewrite Z.add_0_r. cbn [dur_secs dur_nanos]. split; [intros _ | lia].
    destruct (Z.ltb_spec (2 ^ 63 - 1) (0 + secs));
      destruct (Z.leb_spec secs (2 ^ 63 - 1)); try lia; [reflexivity|].
    destruct (Z.leb_spec NANOS_PER_SEC (0 + nanos)); [lia|].
    do 3 f_equal; lia.
  - destruct (Z.ltb_spec (secs + nanos / NANOS_PER_SEC) (2 ^ 64)).
    + cbn [dur_secs dur_nanos]. split; [intros _ | lia].
      destruct (Z.ltb_spec (2 ^ 63 - 1) (0 + (secs + nanos / NANOS_PER_SEC)));
        destruct (Z.leb_spec (secs + nanos / NANOS_PER_SEC) (2 ^ 63 - 1)); try lia;
        [reflexivity|].
      destruct (Z.leb_spec NANOS_PER_SEC (0 + nanos mod NANOS_PER_SEC)); [lia|].
      do 3 f_equal; lia.
    + split; [lia | eexists; reflexivity].
Qed.

Lemma epoch_checked_or_now_spec_witness :
  (0 <= 2 ^ 63 < 2 ^ 64 /\ 0 <= 0) /\
  epoch_checked_or_now sample_now (2 ^ 63) 0 = Ret sample_now.
Proof.
  split; [lia|].
  exact (proj1 (epoch_checked_or_now_spec sample_now (2 ^ 63) 0 ltac:(lia) ltac:(lia))
           ltac:(vm_compute; reflexivity)).
Defined.

(** Set-attributes in an active session of the Linux build, when the
    access and modification times that are present fit in an [i64]: the
    filesystem's [setattr] receives each of mode, uid, gid, size, atime,
    mtime and fh as [Some] exactly when its bit (0 to 6) of [valid] is set,
    the times normalised from seconds and nanoseconds, and the macOS-only
    fields as [None]. *)
Theorem setattr_linux_fields (cfg : Config) (now : SystemTime)
    {FS : Type} `{Filesystem FS} (self : Request) (se : Session FS) (arg : fuse_setattr_in) :
  target_macos cfg = false -> initialized se = true -> destroyed se = false ->
  operation (request self) = SetAttr arg ->
  0 <= setattr_atimensec arg -> 0 <= setattr_mtimensec arg ->
  (Z.testbit (setattr_valid arg) 4 = true ->
   setattr_atime arg + setattr_atimensec arg / NANOS_PER_SEC <= I64_MAX) ->
  (Z.testbit (setattr_valid arg) 5 = true ->
   setattr_mtime arg + setattr_mtimensec arg / NANOS_PER_SEC <= I64_MAX) ->
  let v := setattr_valid arg in
  let bit {A : Type} (k : Z) (x : A) := if Z.testbit v k then Some x else None in
  dispatch cfg now self se =
    invoke self se
      (FsSetAttr (nodeid (request self))
         (bit 0 (setattr_mode arg)) (bit 1 (setattr_uid arg)) (bit 2 (setattr_gid arg))
         (bit 3 (setattr_size arg))
         (bit 4 (mkSystemTime (setattr_atime arg + setattr_atimensec arg / NANOS_PER_SEC)
                   (setattr_atimensec arg mod NANOS_PER_SEC)))
         (bit 5 (mkSystemTime (setattr_mtime arg + setattr_mtimensec arg / NANOS_PER_SEC)
                   (setattr_mtimensec arg mod NANOS_PER_SEC)))
         (bit 6 (setattr_fh arg)) None None None None (reply self)).
Proof.
  intros Hmac Hi Hd Hop Han Hmn Ha Hm v bit. unfold bit, v; clear bit v.
  unfold dispatch. rewrite Hop. cbv zeta. rewrite guarded_active by assumption.
  unfold run_exec, setattr_call, bind, get_macos_setattr. rewrite Hmac.
  unfold FATTR_MODE, FATTR_UID, FATTR_GID, FATTR_SIZE, FATTR_ATIME, FATTR_MTIME, FATTR_FH.
  rewrite !opt_bit_testbit by lia.
  unfold time_bit. rewrite !land_shiftl1 by lia.
  destruct (Z.testbit (setattr_valid arg) 4) eqn:E4;
    destruct (Z.testbit (setattr_valid arg) 5) eqn:E5;
    try rewrite (proj1 (epoch_plus_normalised _ _ Han) (Ha eq_refl));
    try rewrite (proj1 (epoch_plus_normalised _ _ Hmn) (Hm eq_refl)); reflexivity.
Qed.

Lemma setattr_linux_fields_witness :
  let sa := sample_setattr_in FATTR_SIZE 0 in
  let req := sample_request (SetAttr sa) in
  dispatch (linux_cfg 65536) sample_now req (sample_session true false) =
    invoke req (sample_session true false)
      (FsSetAttr 1 None None None (Some 4096) None None None None None None None (reply req)).
Proof.
  intros sa req.
  exact (setattr_linux_fields (linux_cfg 65536) sample_now req (sample_session true false) sa
           eq_refl eq_refl eq_refl eq_refl ltac:(simpl; lia) ltac:(simpl; lia)
           ltac:(vm_compute; discriminate) ltac:(vm_compute; discriminate)).
Defined.

(** The destroyed guard in an initialized session (shared by the
    teardown composition below). *)
Lemma dispatch_destroyed_initialized (cfg : Config) (now : SystemTime)
    {FS : Type} `{Filesystem FS} (self : Request) (se : Session FS) :
  destroyed se = true ->
  (forall arg, operation (request self) <> Init arg) ->
  operation (request self) <> Destroy ->
  dispatch cfg now self se = Done se [Send (reply self) (ReplyError EIO)].
Proof.
  intros Hd Hi Hx. unfold dispatch.
  destruct (operation (request self));
    try (exfalso; eapply Hi; reflexivity); try (exfalso; apply Hx; reflexivity);
    guards; rewrite Hd; destruct (initialized se); reflexivity.
Qed.

(** Teardown then anything: after a teardown of an initialized session, the
    session is initialized and destroyed, and every later operation other
    than a handshake or another teardown is answered with EIO without
    reaching the filesystem or changing the session. *)
Theorem teardown_then_rejects (cfg : Config) (now : SystemTime)
    {FS : Type} `{Filesystem FS} (self : Request) (se : Session FS) :
  initialized se = true -> operation (request self) = Destroy ->
  let se' := outcome_session (dispatch cfg now self se) in
  initialized se' = true /\ destroyed se' = true /\
  forall self2, (forall arg, operation (request self2) <> Init arg) ->
  operation (request self2) <> Destroy ->
  dispatch cfg now self2 se' = Done se' [Send (reply self2) (ReplyError EIO)].
Proof.
  intros Hi Hop se'.
  assert (E : destroyed se' = true /\ initialized se' = true).
  { unfold se', dispatch. rewrite Hop. guards. rewrite Hi. simpl. split; [reflexivity | exact Hi]. }
  split; [tauto|]. split; [tauto|].
  intros self2 Hn Hx. apply dispatch_destroyed_initialized; tauto.
Qed.

Lemma teardown_then_rejects_witness :
  let se' := outcome_session (dispatch (linux_cfg 65536) sample_now (sample_request Destroy)
                                (sample_session true false)) in
  (initialized (sample_session true false) = true /\
   operation (request (sample_request Destroy)) = Destroy) /\
  dispatch (linux_cfg 65536) sample_now (sample_request StatFs) se' =
    Done se' [Send (reply (sample_request StatFs)) (ReplyError EIO)].
Proof.
  intro se'. split; [split; reflexivity|].
  exact (proj2 (proj2 (teardown_then_rejects (linux_cfg 65536) sample_now
                         (sample_request Destroy) (sample_session true false) eq_refl eq_refl))
           (sample_request StatFs) ltac:(intros a; simpl; discriminate)
           ltac:(simpl; discriminate)).
Defined.
